(** * Metrics aggregation of the daily report service

    A shallow embedding of [process_data] (src/app.py, lines 59-141): the
    function that turns the raw campaign records fetched from the ads API
    into overall and per-campaign KPIs.

    The function is written against pandas.  The embedding keeps its
    shape: column extraction from the list of records, per-column coercion,
    the two [apply] extractions, the totals, the [groupby] table, the four
    ratio columns and the two views.

    - A record is a Python dictionary of JSON values.
    - A Python exception is a result of the embedding, and the warning the
      function logs is returned next to it.
    - A Python float is an IEEE 754 binary64 number, with the arithmetic of
      the standard library's specification of floats (round to nearest,
      ties to even).  Text is read as Python's [float] reads it.
    - The integer columns hold 64-bit integers; sums wrap around.
    - What numpy does not define, the result of casting a double that does
      not fit 64 bits and the order in which a quicksort leaves equal keys,
      is a parameter ([Backend]).
    - Campaign names are text or null; other values as group keys are not
      covered. *)

From Stdlib Require Import ZArith List String Ascii Bool Lia.
From Stdlib Require Import Permutation Sorted OrderedTypeEx.
From Stdlib Require Import Floats.SpecFloat.
Import ListNotations.

#[local] Set Warnings "-register-all".

Local Open Scope Z_scope.

(** ** Binary64 arithmetic *)

Module F64.

Definition prec : Z := 53.
Definition emax : Z := 1024.

Definition float : Type := spec_float.

Definition zero : float := S754_zero false.
Definition nan : float := S754_nan.
Definition inf : float := S754_infinity false.
Definition neg_inf : float := S754_infinity true.

Definition add : float -> float -> float := SFadd prec emax.
Definition mul : float -> float -> float := SFmul prec emax.
Definition div : float -> float -> float := SFdiv prec emax.

Definition eqb : float -> float -> bool := SFeqb.
Definition ltb : float -> float -> bool := SFltb.
Definition leb : float -> float -> bool := SFleb.

(** Conversion of an integer (Python [int], numpy [int64]) to the nearest
    double. *)
Definition of_Z (z : Z) : float := binary_normalize prec emax z 0 false.

Definition one : float := of_Z 1.
Definition hundred : float := of_Z 100.

Definition is_nan (f : float) : bool :=
  match f with S754_nan => true | _ => false end.

Definition is_inf (f : float) : bool :=
  match f with S754_infinity _ => true | _ => false end.

Definition is_finite (f : float) : bool :=
  match f with
  | S754_zero _ | S754_finite _ _ _ => true
  | S754_infinity _ | S754_nan => false
  end.



(** Integer part of a finite double, rounding toward zero (what the C
    cast to a signed integer computes when the result fits). *)
Definition trunc (f : float) : Z :=
  match f with
  | S754_finite s m e =>
      cond_Zopp s (if 0 <=? e then Z.shiftl (Zpos m) e
                   else Z.shiftr (Zpos m) (- e))
  | _ => 0
  end.

(** The double nearest to [(-1)^neg * m * 10^e10], for [0 <= m]: the value
    of a decimal literal.  A non-negative exponent gives an integer, which
    is rounded directly; a negative one gives a quotient of two integers,
    which is rounded from its integer quotient and the position of the
    remainder, as [div] does. *)
Definition of_decimal (neg : bool) (m e10 : Z) : float :=
  match m with
  | Z0 => S754_zero neg
  | Zneg _ => nan
  | Zpos _ =>
      if 0 <=? e10 then
        binary_normalize prec emax (cond_Zopp neg (m * 10 ^ e10)) 0 neg
      else
        let '(q, e, l) :=
          SFdiv_core_binary prec emax m 0 (10 ^ (- e10)) 0 in
        binary_round_aux prec emax neg q e l
  end.

End F64.

Abbreviation float := F64.float.

(** ** Python values, exceptions and results *)

(** The values a decoded JSON document is made of.  A [dict] keeps its
    entries in insertion order; its keys are text and are pairwise
    distinct, so [lookup] returning the first match is the dictionary
    lookup. *)
Inductive pyval : Type :=
| PyNone
| PyBool (b : bool)
| PyInt (z : Z)
| PyFloat (f : float)
| PyStr (s : string)
| PyList (items : list pyval)
| PyDict (entries : list (string * pyval)).

Definition record : Type := list (string * pyval).

Inductive exn : Type :=
| KeyError (key : string)
| TypeError
| ValueError
| OverflowError
| IntCastingNaNError
| NonTextGroupKey.

Inductive result (A : Type) : Type :=
| Ok (a : A)
| Raise (e : exn).

Arguments Ok {A} a.
Arguments Raise {A} e.

Definition bind {A B : Type} (r : result A) (k : A -> result B) : result B :=
  match r with
  | Ok a => k a
  | Raise e => Raise e
  end.

Notation "x <- r ;; k" := (bind r (fun x => k))
  (at level 61, r at next level, right associativity).

(** Element-wise application that stops at the first exception. *)
Fixpoint mapM {A B : Type} (f : A -> result B) (l : list A) : result (list B) :=
  match l with
  | [] => Ok []
  | a :: l' => b <- f a ;; bs <- mapM f l' ;; Ok (b :: bs)
  end.

Fixpoint lookup (k : string) (d : list (string * pyval)) : option pyval :=
  match d with
  | [] => None
  | (k', v) :: d' => if String.eqb k k' then Some v else lookup k d'
  end.

(** [v[k]] *)
Definition getitem (v : pyval) (k : string) : result pyval :=
  match v with
  | PyDict d =>
      match lookup k d with
      | Some x => Ok x
      | None => Raise (KeyError k)
      end
  | _ => Raise TypeError
  end.

(** [v == s] for a text literal [s] *)
Definition eq_str (v : pyval) (s : string) : bool :=
  match v with
  | PyStr t => String.eqb t s
  | _ => false
  end.

(** ** Text to number *)

Module Parse.

Definition code (c : ascii) : Z := Z.of_N (N_of_ascii c).

Definition is_space (c : ascii) : bool :=
  let n := code c in ((9 <=? n) && (n <=? 13)) || (n =? 32).

Definition digit_val (c : ascii) : option Z :=
  let n := code c in
  if (48 <=? n) && (n <=? 57) then Some (n - 48) else None.

Definition lower (c : ascii) : ascii :=
  let n := code c in
  if (65 <=? n) && (n <=? 90) then ascii_of_N (Z.to_N (n + 32)) else c.

Fixpoint lstrip (cs : list ascii) : list ascii :=
  match cs with
  | c :: cs' => if is_space c then lstrip cs' else cs
  | [] => []
  end.

Definition strip (cs : list ascii) : list ascii :=
  rev (lstrip (rev (lstrip cs))).

Definition sign (cs : list ascii) : bool * list ascii :=
  match cs with
  | "-"%char :: cs' => (true, cs')
  | "+"%char :: cs' => (false, cs')
  | _ => (false, cs)
  end.

(** [digitpart ::= digit (["_"] digit)*], read as far as it goes.  [acc]
    is the value of the digits read so far and [n] their number; an
    underscore is accepted (when [us]) only between two digits. *)
Fixpoint digitpart (us : bool) (acc n : Z) (cs : list ascii)
  : Z * Z * list ascii :=
  match cs with
  | [] => (acc, n, [])
  | c :: cs' =>
      match digit_val c with
      | Some d => digitpart us (10 * acc + d) (n + 1) cs'
      | None =>
          if us && (code c =? 95) && (0 <? n) then
            match cs' with
            | c' :: _ =>
                match digit_val c' with
                | Some _ => digitpart us acc n cs'
                | None => (acc, n, cs)
                end
            | [] => (acc, n, cs)
            end
          else (acc, n, cs)
      end
  end.

(** [number ::= [digitpart] "." digitpart | digitpart ["."]], followed by
    an optional [("e" | "E") [sign] digitpart], up to the end of the
    text.  The result is the pair [(m, e)] of the literal [m * 10^e]. *)
Definition number (us : bool) (cs : list ascii) : option (Z * Z) :=
  let '(ip, ni, r1) := digitpart us 0 0 cs in
  let '(m, nf, r2) :=
    match r1 with
    | "."%char :: r => digitpart us ip 0 r
    | _ => (ip, 0, r1)
    end in
  if (0 <? ni) || (0 <? nf) then
    match r2 with
    | [] => Some (m, - nf)
    | c :: r =>
        if (code (lower c) =? 101) then
          let '(neg, r') := sign r in
          let '(ex, ne, r'') := digitpart us 0 0 r' in
          match r'' with
          | [] => if 0 <? ne then Some (m, cond_Zopp neg ex - nf) else None
          | _ :: _ => None
          end
        else None
    end
  else None.

Definition is_word (w : string) (cs : list ascii) : bool :=
  if list_eq_dec ascii_dec (map lower cs) (list_ascii_of_string w)
  then true else false.

(** [floatvalue ::= [sign] (floatnumber | "inf" | "infinity" | "nan")],
    letters in either case, surrounded by optional white space.  [us]
    tells whether digits may be grouped by underscores, which [float]
    allows and [pd.to_numeric] does not. *)
Definition float_literal (us : bool) (s : string) : option float :=
  let '(neg, body) := sign (strip (list_ascii_of_string s)) in
  if is_word "inf" body || is_word "infinity" body
  then Some (S754_infinity neg)
  else if is_word "nan" body then Some F64.nan
  else
    match number us body with
    | Some (m, e) => Some (F64.of_decimal neg m e)
    | None => None
    end.

End Parse.

(** [float(v)] *)
Definition py_float (v : pyval) : result float :=
  match v with
  | PyFloat f => Ok f
  | PyInt z =>
      let f := F64.of_Z z in
      if F64.is_inf f then Raise OverflowError else Ok f
  | PyBool b => Ok (if b then F64.one else F64.zero)
  | PyStr s =>
      match Parse.float_literal true s with
      | Some f => Ok f
      | None => Raise ValueError
      end
  | PyNone | PyList _ | PyDict _ => Raise TypeError
  end.

(** ** The numerical back end

    Two things the program leaves to numpy.  The C cast of a double that
    does not fit a 64-bit integer has no defined result; [cast_overflow] is
    whatever the platform delivers.  [sort_values(by, ascending=False)] is
    called with the default [kind='quicksort'], which promises the order of
    the keys and nothing about rows with equal keys; [sort_desc key] is any
    such routine. *)
Class Backend : Type := {
  cast_overflow : float -> Z;
  sort_desc : forall {A : Type}, (A -> float) -> list A -> list A;
  sort_desc_perm :
    forall (A : Type) (key : A -> float) (l : list A),
      Permutation l (sort_desc key l);
  sort_desc_sorted :
    forall (A : Type) (key : A -> float) (l : list A),
      Forall (fun x => F64.is_nan (key x) = false) l ->
      Sorted (fun a b => F64.leb (key b) (key a) = true) (sort_desc key l)
}.


(** ** 64-bit integers *)

Definition int64_min : Z := - 2 ^ 63.
Definition int64_max : Z := 2 ^ 63 - 1.

Definition in_int64 (z : Z) : bool := (int64_min <=? z) && (z <=? int64_max).

Definition wrap64 (z : Z) : Z := (z + 2 ^ 63) mod 2 ^ 64 - 2 ^ 63.

(** ** The pandas operations the function uses *)

(** [df[key]] on the frame built from the records: the column exists when
    some record has the key, and holds NaN where a record lacks it. *)
Definition has_key (key : string) (r : record) : bool :=
  match lookup key r with Some _ => true | None => false end.

Definition cell (key : string) (r : record) : pyval :=
  match lookup key r with Some v => v | None => PyFloat F64.nan end.

Definition df_getitem (raw_data : list record) (key : string)
  : result (list pyval) :=
  if existsb (has_key key) raw_data then Ok (map (cell key) raw_data)
  else Raise (KeyError key).

(** One cell of [pd.to_numeric(column, errors='coerce')]: the number the
    cell holds or spells, NaN otherwise.  (A column of integers only stays
    a column of 64-bit integers in pandas; reading every number as the
    nearest double is the same thing up to [2^53].) *)
Definition to_numeric_coerce (v : pyval) : float :=
  match v with
  | PyNone => F64.nan
  | PyBool b => if b then F64.one else F64.zero
  | PyInt z => F64.of_Z z
  | PyFloat f => f
  | PyStr s =>
      match Parse.float_literal false s with
      | Some f => f
      | None => F64.nan
      end
  | PyList _ | PyDict _ => F64.nan
  end.

(** [.fillna(0)] *)
Definition fillna0 (f : float) : float :=
  if F64.is_nan f then F64.zero else f.

(** [.replace([float('inf'), -float('inf')], 0)] *)
Definition replace_inf0 (f : float) : float :=
  if F64.eqb f F64.inf || F64.eqb f F64.neg_inf then F64.zero else f.

(** [Series.sum()]: NaN counts for nothing, the rest is added up in row
    order.  The sum of a group in [groupby(...).agg('sum')] is the same
    fold over the rows of the group.  (On columns longer than the few rows
    of the examples below pandas groups the additions in blocks; that can
    change the last bit of a sum and nothing else here.) *)
Definition fsum (xs : list float) : float :=
  fold_left F64.add (map fillna0 xs) F64.zero.

Definition isum (xs : list Z) : Z := wrap64 (fold_left Z.add xs 0).

(** The [lambda] of the two [apply] calls:
    [next((float(item['value']) for item in x
           if item['action_type'] == 'purchase'), 0)
     if isinstance(x, list) else 0]. *)
Fixpoint first_purchase (items : list pyval) : result pyval :=
  match items with
  | [] => Ok (PyInt 0)
  | item :: rest =>
      t <- getitem item "action_type" ;;
      if eq_str t "purchase" then
        v <- getitem item "value" ;;
        f <- py_float v ;;
        Ok (PyFloat f)
      else first_purchase rest
  end.

Definition purchase_value (x : pyval) : result pyval :=
  match x with
  | PyList items => first_purchase items
  | _ => Ok (PyInt 0)
  end.

(** [.astype(float)] on the numbers the lambda returns. *)
Definition number_astype_float (v : pyval) : float :=
  match v with
  | PyFloat f => f
  | PyInt z => F64.of_Z z
  | _ => F64.nan
  end.

Inductive log_record : Type :=
| Warning (message : string).

(** A row of [campaign_summary]. *)
Record CampaignMetrics : Type := {
  campaign_name : string;
  spend : float;
  sales : float;
  impressions : Z;
  clicks : Z;
  conversions : Z;
  roas : float;
  cpa : float;
  ctr : float;
  conversion_rate : float
}.

(** The dictionary [process_data] returns. *)
Record MetricsResult : Type := {
  total_sales : float;
  total_ad_spend : float;
  overall_roas : float;
  overall_cpa : float;
  overall_ctr : float;
  overall_conversion_rate : float;
  total_impressions : Z;
  total_clicks : Z;
  campaign_summary : list CampaignMetrics;
  high_roas_campaigns : list CampaignMetrics;
  active_campaigns : list CampaignMetrics
}.

(** The five columns lines 79-91 store in the frame. *)
Record Frame : Type := {
  col_spend : list float;
  col_impressions : list Z;
  col_clicks : list Z;
  col_conversions : list Z;
  col_sales : list float
}.

(** The key [groupby] files a row under: the text of its campaign name;
    none for a missing or null name, whose rows [groupby] leaves out.  A
    list or a dictionary is unhashable.  Numbers and booleans as campaign
    names are outside this embedding. *)
Definition group_key (v : pyval) : result (option string) :=
  match v with
  | PyStr s => Ok (Some s)
  | PyNone => Ok None
  | PyFloat f => if F64.is_nan f then Ok None else Raise NonTextGroupKey
  | PyBool _ | PyInt _ => Raise NonTextGroupKey
  | PyList _ | PyDict _ => Raise TypeError
  end.

(** The group keys in ascending order, each once. *)
Fixpoint insert_key (k : string) (ks : list string) : list string :=
  match ks with
  | [] => [k]
  | k' :: ks' =>
      match String.compare k k' with
      | Lt => k :: ks
      | Eq => ks
      | Gt => k' :: insert_key k ks'
      end
  end.

Fixpoint group_keys (keys : list (option string)) : list string :=
  match keys with
  | [] => []
  | Some k :: keys' => insert_key k (group_keys keys')
  | None :: keys' => group_keys keys'
  end.

Definition in_group (k : string) (key : option string) : bool :=
  match key with
  | Some k' => String.eqb k' k
  | None => false
  end.

(** The entries of a column on the rows of group [k], in row order. *)
Definition select {A : Type} (keys : list (option string)) (col : list A)
  (k : string) : list A :=
  map snd (filter (fun p => in_group k (fst p)) (combine keys col)).

(** The ratio columns: the quotient, with infinities and then NaN replaced
    by 0. *)
Definition safe (f : float) : float := fillna0 (replace_inf0 f).

Definition percent (a b : Z) : float :=
  F64.mul (F64.div (F64.of_Z a) (F64.of_Z b)) F64.hundred.

Definition summary_row (k : string) (sp sa : float) (im cl cv : Z)
  : CampaignMetrics :=
  {| campaign_name := k;
     spend := sp; sales := sa;
     impressions := im; clicks := cl; conversions := cv;
     roas := safe (F64.div sa sp);
     cpa := safe (F64.div sp (F64.of_Z cv));
     ctr := safe (percent cl im);
     conversion_rate := safe (percent cv cl) |}.

Definition groupby_sum (keys : list (option string)) (df : Frame)
  : list CampaignMetrics :=
  map (fun k =>
         summary_row k
           (fsum (select keys (col_spend df) k))
           (fsum (select keys (col_sales df) k))
           (isum (select keys (col_impressions df) k))
           (isum (select keys (col_clicks df) k))
           (isum (select keys (col_conversions df) k)))
      (group_keys keys).

Definition is_high_roas (c : CampaignMetrics) : bool :=
  F64.ltb F64.one (roas c).

Definition is_active (c : CampaignMetrics) : bool :=
  (0 <? impressions c) || (0 <? clicks c) || (0 <? conversions c).

Definition empty_metrics : MetricsResult :=
  {| total_sales := F64.zero;
     total_ad_spend := F64.zero;
     overall_roas := F64.zero;
     overall_cpa := F64.zero;
     overall_ctr := F64.zero;
     overall_conversion_rate := F64.zero;
     total_impressions := 0;
     total_clicks := 0;
     campaign_summary := [];
     high_roas_campaigns := [];
     active_campaigns := [] |}.

Section ProcessData.

Context {B : Backend}.

(** [.astype(int)] on a double: non-finite values are refused, the others
    are cast. *)
Definition astype_int (f : float) : result Z :=
  if F64.is_finite f then
    let z := F64.trunc f in
    Ok (if in_int64 z then z else wrap64 (cast_overflow f))
  else Raise IntCastingNaNError.

(** [.astype(int)] on the numbers the lambda returns. *)
Definition number_astype_int (v : pyval) : result Z :=
  match v with
  | PyInt z => Ok z
  | _ => astype_int (number_astype_float v)
  end.

(** Lines 76-91: the frame and its five converted columns. *)
Definition build_frame (raw_data : list record) : result Frame :=
  c_spend <- df_getitem raw_data "spend" ;;
  let spend := map (fun v => fillna0 (to_numeric_coerce v)) c_spend in
  c_impressions <- df_getitem raw_data "impressions" ;;
  impressions <-
    mapM (fun v => astype_int (fillna0 (to_numeric_coerce v))) c_impressions ;;
  c_clicks <- df_getitem raw_data "clicks" ;;
  clicks <-
    mapM (fun v => astype_int (fillna0 (to_numeric_coerce v))) c_clicks ;;
  c_actions <- df_getitem raw_data "actions" ;;
  found <- mapM purchase_value c_actions ;;
  conversions <- mapM number_astype_int found ;;
  c_values <- df_getitem raw_data "action_values" ;;
  found_values <- mapM purchase_value c_values ;;
  let sales := map number_astype_float found_values in
  Ok {| col_spend := spend;
        col_impressions := impressions;
        col_clicks := clicks;
        col_conversions := conversions;
        col_sales := sales |}.

(** Lines 93-141: totals, overall KPIs, the campaign table and the two
    views. *)
Definition summarise (raw_data : list record) (df : Frame)
  : result MetricsResult :=
  let total_ad_spend := fsum (col_spend df) in
  let total_sales := fsum (col_sales df) in
  let total_impressions := isum (col_impressions df) in
  let total_clicks := isum (col_clicks df) in
  let total_conversions := isum (col_conversions df) in
  let overall_roas :=
    if F64.ltb F64.zero total_ad_spend
    then F64.div total_sales total_ad_spend else F64.zero in
  let overall_cpa :=
    if 0 <? total_conversions
    then F64.div total_ad_spend (F64.of_Z total_conversions)
    else F64.zero in
  let overall_ctr :=
    if 0 <? total_impressions
    then percent total_clicks total_impressions else F64.zero in
  let overall_conversion_rate :=
    if 0 <? total_clicks
    then percent total_conversions total_clicks else F64.zero in
  c_names <- df_getitem raw_data "campaign_name" ;;
  keys <- mapM group_key c_names ;;
  let campaign_summary := groupby_sum keys df in
  let high_roas_campaigns := filter is_high_roas campaign_summary in
  let active_campaigns :=
    sort_desc roas (filter is_active campaign_summary) in
  Ok {| total_sales := total_sales;
        total_ad_spend := total_ad_spend;
        overall_roas := overall_roas;
        overall_cpa := overall_cpa;
        overall_ctr := overall_ctr;
        overall_conversion_rate := overall_conversion_rate;
        total_impressions := total_impressions;
        total_clicks := total_clicks;
        campaign_summary := campaign_summary;
        high_roas_campaigns := high_roas_campaigns;
        active_campaigns := active_campaigns |}.

(** [process_data]: what it logs and what it returns or raises. *)
Definition process_data (raw_data : list record)
  : list log_record * result MetricsResult :=
  match raw_data with
  | [] => ([Warning "No data returned from API"], Ok empty_metrics)
  | _ :: _ => ([], df <- build_frame raw_data ;; summarise raw_data df)
  end.

End ProcessData.

(** * Notions the statements use *)

(** ** Ratios *)



(** ** Extraction and coercion *)





(** ** Records the function can read *)

(** An entry of [actions] or [action_values] the generator can read: a
    dictionary with an [action_type] and, when that is ["purchase"], a
    [value] that [float] accepts; for [actions] the value must be finite,
    as it is cast to an integer. *)
Definition entry_ok (finite_value : bool) (item : pyval) : Prop :=
  exists d t,
    item = PyDict d /\ lookup "action_type" d = Some t
    /\ (eq_str t "purchase" = true ->
        exists v f, lookup "value" d = Some v /\ py_float v = Ok f
                    /\ (finite_value = true -> F64.is_finite f = true)).

Definition entries_ok (finite_value : bool) (x : pyval) : Prop :=
  match x with
  | PyList items => Forall (entry_ok finite_value) items
  | _ => True
  end.

(** A campaign name that is text, null or missing. *)
Definition name_ok (v : pyval) : Prop :=
  match v with
  | PyStr _ | PyNone => True
  | PyFloat f => F64.is_nan f = true
  | _ => False
  end.

Definition record_ok (r : record) : Prop :=
  F64.is_inf (to_numeric_coerce (cell "impressions" r)) = false
  /\ F64.is_inf (to_numeric_coerce (cell "clicks" r)) = false
  /\ entries_ok true (cell "actions" r)
  /\ entries_ok false (cell "action_values" r)
  /\ name_ok (cell "campaign_name" r).

(** Each of the six fields occurs in some record, so that the frame has
    its column. *)
Definition columns_present (raw_data : list record) : Prop :=
  Forall (fun key => existsb (has_key key) raw_data = true)
    ["spend"; "impressions"; "clicks"; "actions"; "action_values";
     "campaign_name"]%string.

(** ** Order of names *)

(** Text is compared character by character, by character code. *)
Definition str_lt (a b : string) : Prop := String.compare a b = Lt.


(** ** Whole-number spends *)

Definition zsum (l : list Z) : Z := fold_right Z.add 0 l.

(** The spend of a record after coercion. *)
Definition spend_value (r : record) : float :=
  fillna0 (to_numeric_coerce (cell "spend" r)).

(** A spend that is a non-negative whole number. *)
Definition whole_spend (r : record) : Prop :=
  0 <= F64.trunc (spend_value r)
  /\ spend_value r = F64.of_Z (F64.trunc (spend_value r)).

(** A record with a campaign name that is text. *)
Definition has_name (r : record) : Prop :=
  exists s, cell "campaign_name" r = PyStr s.

(** ** Effects *)


Section Call.

Context {B : Backend}.


End Call.

Local Open Scope string_scope.

(** ** Records *)

(** [{"action_type": "purchase", "value": v}] *)
Definition purchase_entry (v : string) : pyval :=
  PyDict [("action_type", PyStr "purchase"); ("value", PyStr v)].

(** A record with the six fields, in the order the API is asked for them. *)
Definition campaign_record (name sp im cl actions values : pyval) : record :=
  [("campaign_name", name); ("spend", sp); ("impressions", im);
   ("clicks", cl); ("actions", actions); ("action_values", values)].

(** Scenario B of the specification. *)
Definition scenario_B : list record :=
  [campaign_record (PyStr "X") (PyStr "100") (PyStr "1000") (PyStr "50")
     (PyList [purchase_entry "5"]) (PyList [purchase_entry "500"])].

(** The row scenario B expects for campaign X. *)
Definition row_X : CampaignMetrics :=
  {| campaign_name := "X";
     spend := F64.of_Z 100;
     sales := F64.of_Z 500;
     impressions := 1000;
     clicks := 50;
     conversions := 5;
     roas := F64.of_Z 5;
     cpa := F64.of_Z 20;
     ctr := F64.of_Z 5;
     conversion_rate := F64.of_Z 10 |}.

(** Scenario C of the specification. *)
Definition scenario_C : list record :=
  [campaign_record (PyStr "X") (PyStr "abc") (PyInt 0) (PyInt 0)
     (PyList []) (PyList [])].

(** Scenario D of the specification. *)
Definition scenario_D : list record :=
  [campaign_record (PyStr "X") (PyStr "100") (PyStr "10") (PyStr "1")
     (PyList []) (PyList []);
   campaign_record (PyStr "X") (PyStr "200") (PyStr "10") (PyStr "1")
     (PyList []) (PyList [])].

(** A record without [actions] and [action_values], as the API returns it
    for a campaign that had no action that day. *)
Definition no_actions : list record :=
  [[("campaign_name", PyStr "X"); ("spend", PyStr "100");
    ("impressions", PyStr "1000"); ("clicks", PyStr "50")]].

(** A purchase whose value is not a number. *)
Definition unparsable_purchase : list record :=
  [campaign_record (PyStr "X") (PyStr "100") (PyStr "1000") (PyStr "50")
     (PyList [purchase_entry "abc"]) (PyList [])].


(** Two records, one of them without a campaign name. *)
Definition unnamed_record : list record :=
  [campaign_record (PyStr "A") (PyStr "1") (PyStr "1") (PyStr "1")
     (PyList []) (PyList []);
   campaign_record PyNone (PyStr "2") (PyStr "1") (PyStr "1")
     (PyList []) (PyList [])].


(** Three named records: 1 and 1 for campaign A, [10^16] for campaign B in
    between. *)
Definition rounded_total : list record :=
  [campaign_record (PyStr "A") (PyStr "1") (PyStr "1") (PyStr "1")
     (PyList []) (PyList []);
   campaign_record (PyStr "B") (PyStr "1e16") (PyStr "1") (PyStr "1")
     (PyList []) (PyList []);
   campaign_record (PyStr "A") (PyStr "1") (PyStr "1") (PyStr "1")
     (PyList []) (PyList [])].


(** Two records with little that is well formed: text for a spend, null
    impressions, a dictionary for clicks, text for [actions], and a second
    record with a null name, a number for spend and nothing else. *)
Definition messy_records : list record :=
  [campaign_record (PyStr "X") (PyStr "abc") PyNone (PyDict [])
     (PyStr "n/a")
     (PyList [PyDict [("action_type", PyStr "view")]; purchase_entry "12.5"]);
   [("campaign_name", PyNone); ("spend", PyInt 3)]].

(** Four campaigns out of order: A and B are active with the same ROAS, C
    has a ROAS above 1, D has no impression, click or conversion. *)
Definition four_campaigns : list record :=
  [campaign_record (PyStr "C") (PyStr "100") (PyStr "1000") (PyStr "50")
     (PyList [purchase_entry "5"]) (PyList [purchase_entry "500"]);
   campaign_record (PyStr "B") (PyStr "10") (PyStr "5") (PyStr "0")
     (PyList []) (PyList []);
   campaign_record (PyStr "A") (PyStr "20") (PyStr "7") (PyStr "1")
     (PyList []) (PyList []);
   campaign_record (PyStr "D") (PyStr "1") (PyStr "0") (PyStr "0")
     (PyList []) (PyList [])].

Local Close Scope string_scope.

(** * Properties *)

(** ** Facts about binary64 comparison *)

Module F64Facts.

Lemma compare_antisym (x y : float) :
  SFcompare x y = option_map CompOpp (SFcompare y x).
Proof.
  destruct x as [sx | sx | | sx mx ex], y as [sy | sy | | sy my ey];
    simpl; try reflexivity;
    try (destruct sx; reflexivity); try (destruct sy; reflexivity);
    try (destruct sx, sy; reflexivity).
  change (Pos.compare_cont Eq mx my) with (Pos.compare mx my).
  change (Pos.compare_cont Eq my mx) with (Pos.compare my mx).
  rewrite (Z.compare_antisym ey ex), (Pos.compare_antisym my mx).
  destruct sx, sy; try reflexivity;
    destruct (ey ?= ex); simpl; try reflexivity;
    destruct (Pos.compare my mx); reflexivity.
Qed.

Lemma compare_defined (x y : float) :
  F64.is_nan x = false -> F64.is_nan y = false ->
  exists c, SFcompare x y = Some c.
Proof.
  destruct x, y; simpl; intros Hx Hy; try discriminate; eauto.
Qed.

Lemma ltb_leb (x y : float) : F64.ltb x y = true -> F64.leb x y = true.
Proof.
  unfold F64.ltb, F64.leb, SFltb, SFleb.
  destruct (SFcompare x y) as [[ | | ] | ]; intros H;
    try discriminate; reflexivity.
Qed.


Lemma ltb_false_leb (x y : float) :
  F64.is_nan x = false -> F64.is_nan y = false ->
  F64.ltb x y = false -> F64.leb y x = true.
Proof.
  intros Hx Hy. unfold F64.ltb, F64.leb, SFltb, SFleb.
  rewrite (compare_antisym y x).
  destruct (compare_defined x y Hx Hy) as [c ->].
  destruct c; simpl; intros H; try discriminate; reflexivity.
Qed.

(** Two doubles that compare equal compare alike with every other one. *)
Lemma eqb_compare (x k y : float) :
  F64.eqb x k = true -> SFcompare x y = SFcompare k y.
Proof.
  unfold F64.eqb, SFeqb.
  destruct x as [sx | sx | | sx mx ex], k as [sk | sk | | sk mk ek];
    simpl; intros H; try discriminate H;
    try (destruct sx; discriminate H); try (destruct sk; discriminate H).
  - destruct y; reflexivity.
  - destruct sx, sk; try discriminate H; reflexivity.
  - change (Pos.compare_cont Eq mx mk) with (Pos.compare mx mk) in H.
    destruct sx, sk; try discriminate H;
      destruct (Z.compare_spec ex ek) as [He | He | He];
      try discriminate H; subst ek;
      destruct (Pos.compare_spec mx mk) as [Hm | Hm | Hm];
      try discriminate H; subst mk; reflexivity.
Qed.


Lemma eqb_gtb_neq (x k y : float) :
  F64.eqb x k = true -> F64.ltb y x = true -> F64.eqb y k = false.
Proof.
  intros Hk. unfold F64.ltb, SFltb, F64.eqb, SFeqb.
  rewrite (compare_antisym y x), (eqb_compare x k y Hk),
    (compare_antisym y k).
  destruct (SFcompare k y) as [[ | | ] | ]; simpl; intros H;
    try discriminate; reflexivity.
Qed.

Lemma leb_trans (x y z : float) :
  F64.leb x y = true -> F64.leb y z = true -> F64.leb x z = true.
Proof.
  unfold F64.leb, SFleb.
  destruct x as [sx | sx | | sx mx ex], y as [sy | sy | | sy my ey],
    z as [sz | sz | | sz mz ez]; simpl;
    try discriminate; try reflexivity;
    try (destruct sx; discriminate); try (destruct sy; discriminate);
    try (destruct sx, sy, sz; (discriminate || reflexivity)).
  change (Pos.compare_cont Eq mx my) with (Pos.compare mx my).
  change (Pos.compare_cont Eq my mz) with (Pos.compare my mz).
  change (Pos.compare_cont Eq mx mz) with (Pos.compare mx mz).
  destruct sx, sy, sz; try discriminate; try reflexivity;
    destruct (Z.compare_spec ex ey), (Z.compare_spec ey ez),
      (Z.compare_spec ex ez); try discriminate; try reflexivity; try lia;
    subst;
    destruct (Pos.compare_spec mx my), (Pos.compare_spec my mz),
      (Pos.compare_spec mx mz); simpl; try discriminate; try reflexivity;
    lia.
Qed.

End F64Facts.

(** ** Two back ends

    Two sorting routines that meet the contract, both insertion sorts by
    decreasing key.  [after kx ky] tells whether a row of key [kx] goes
    behind a row of key [ky] it meets; letting it pass rows of equal key
    or not gives a sort that reverses ties or a stable one. *)

Section Insertion.

Variable after : float -> float -> bool.
Context {A : Type}.
Variable key : A -> float.

Fixpoint insert_by (x : A) (l : list A) : list A :=
  match l with
  | [] => [x]
  | y :: l' =>
      if after (key x) (key y) then y :: insert_by x l' else x :: l
  end.

Fixpoint isort_by (l : list A) : list A :=
  match l with
  | [] => []
  | x :: l' => insert_by x (isort_by l')
  end.

Let desc (a b : A) : Prop := F64.leb (key b) (key a) = true.
Let valid (x : A) : Prop := F64.is_nan (key x) = false.

Hypothesis after_leb :
  forall x y, after x y = true -> F64.leb x y = true.
Hypothesis after_total :
  forall x y, F64.is_nan x = false -> F64.is_nan y = false ->
              after x y = false -> F64.leb y x = true.

Lemma insert_by_perm (x : A) (l : list A) :
  Permutation (x :: l) (insert_by x l).
Proof.
  induction l as [ | y l IH]; simpl.
  - apply Permutation_refl.
  - destruct (after (key x) (key y)).
    + eapply perm_trans; [apply perm_swap | apply perm_skip, IH].
    + apply Permutation_refl.
Qed.

Lemma isort_by_perm (l : list A) : Permutation l (isort_by l).
Proof.
  induction l as [ | x l IH]; simpl.
  - apply perm_nil.
  - eapply perm_trans; [apply perm_skip, IH | apply insert_by_perm].
Qed.

Lemma insert_by_hd (x y : A) (l : list A) :
  desc y x -> HdRel desc y l -> HdRel desc y (insert_by x l).
Proof.
  intros Hyx Hl. destruct l as [ | z l]; simpl.
  - constructor. exact Hyx.
  - destruct (after (key x) (key z)); constructor.
    + inversion Hl; assumption.
    + exact Hyx.
Qed.

Lemma insert_by_sorted (x : A) (l : list A) :
  valid x -> Forall valid l ->
  Sorted desc l -> Sorted desc (insert_by x l).
Proof.
  intros Hx Hv Hs. induction Hs as [ | y l Hs IH Hhd]; simpl.
  - repeat constructor.
  - inversion Hv as [ | ? ? Hy Hv']; subst.
    destruct (after (key x) (key y)) eqn:E.
    + constructor.
      * apply IH, Hv'.
      * apply insert_by_hd; [apply after_leb, E | exact Hhd].
    + constructor.
      * constructor; assumption.
      * constructor. apply after_total; assumption.
Qed.

Lemma isort_by_sorted (l : list A) :
  Forall valid l -> Sorted desc (isort_by l).
Proof.
  induction l as [ | x l IH]; simpl; intros Hv.
  - constructor.
  - inversion Hv as [ | ? ? Hx Hv']; subst.
    apply insert_by_sorted.
    + exact Hx.
    + eapply Permutation_Forall; [apply isort_by_perm | exact Hv'].
    + apply IH, Hv'.
Qed.

End Insertion.

(** The stable one: a row stays in front of the rows of equal key that
    followed it.  A double that does not fit is cast to the least 64-bit
    integer, as on x86-64. *)
#[export] Program Instance stable_backend : Backend := {|
  cast_overflow := fun _ => int64_min;
  sort_desc := fun A key l => isort_by F64.ltb key l
|}.
Next Obligation.
  apply isort_by_perm.
Qed.
Next Obligation.
  apply isort_by_sorted.
  - exact F64Facts.ltb_leb.
  - exact F64Facts.ltb_false_leb.
  - assumption.
Qed.


(** ** Shape of a successful run *)

Section Shape.

Context {B : Backend}.

Lemma bind_ok {X Y : Type} (r : result X) (k : X -> result Y) (y : Y) :
  bind r k = Ok y -> exists x, r = Ok x /\ k x = Ok y.
Proof.
  destruct r as [x | e]; simpl; intros H; [eauto | discriminate].
Qed.

Lemma mapM_ok {X Y : Type} (f : X -> result Y) (l : list X) (ys : list Y) :
  mapM f l = Ok ys -> Forall2 (fun x y => f x = Ok y) l ys.
Proof.
  revert ys. induction l as [ | x l IH]; simpl; intros ys H.
  - injection H as <-. constructor.
  - apply bind_ok in H as (y & Hy & H).
    apply bind_ok in H as (ys' & Hys & H).
    injection H as <-. constructor; auto.
Qed.

Lemma mapM_total {X Y : Type} (f : X -> result Y) (l : list X) :
  Forall (fun x => exists y, f x = Ok y) l -> exists ys, mapM f l = Ok ys.
Proof.
  induction 1 as [ | x l (y & Hy) _ (ys & Hys)]; simpl.
  - eauto.
  - rewrite Hy, Hys. simpl. eauto.
Qed.

Lemma df_getitem_ok (raw_data : list record) (key : string)
  (col : list pyval) :
  df_getitem raw_data key = Ok col -> col = map (cell key) raw_data.
Proof.
  unfold df_getitem. destruct (existsb _ _); intros H;
    [injection H as <-; reflexivity | discriminate].
Qed.

(** The table and the views in terms of the group keys. *)
Definition table_of (keys : list (option string)) (df : Frame)
  (m : MetricsResult) : Prop :=
  campaign_summary m = groupby_sum keys df
  /\ high_roas_campaigns m = filter is_high_roas (campaign_summary m)
  /\ active_campaigns m
     = sort_desc roas (filter is_active (campaign_summary m)).

Lemma summarise_ok (raw_data : list record) (df : Frame)
  (m : MetricsResult) :
  summarise raw_data df = Ok m ->
  exists keys,
    mapM group_key (map (cell "campaign_name") raw_data) = Ok keys
    /\ table_of keys df m
    /\ total_ad_spend m = fsum (col_spend df)
    /\ total_sales m = fsum (col_sales df)
    /\ total_impressions m = isum (col_impressions df)
    /\ total_clicks m = isum (col_clicks df)
    /\ overall_roas m
       = (if F64.ltb F64.zero (total_ad_spend m)
          then F64.div (total_sales m) (total_ad_spend m) else F64.zero)
    /\ overall_cpa m
       = (if 0 <? isum (col_conversions df)
          then F64.div (total_ad_spend m)
                 (F64.of_Z (isum (col_conversions df)))
          else F64.zero)
    /\ overall_ctr m
       = (if 0 <? total_impressions m
          then percent (total_clicks m) (total_impressions m)
          else F64.zero)
    /\ overall_conversion_rate m
       = (if 0 <? total_clicks m
          then percent (isum (col_conversions df)) (total_clicks m)
          else F64.zero).
Proof.
  unfold summarise. intros H.
  apply bind_ok in H as (names & Hn & H).
  apply bind_ok in H as (keys & Hk & H).
  apply df_getitem_ok in Hn. subst names.
  injection H as <-. exists keys. unfold table_of. simpl.
  repeat split; auto.
Qed.

Lemma process_data_ok (raw_data : list record) (log : list log_record)
  (m : MetricsResult) :
  process_data raw_data = (log, Ok m) ->
  (raw_data = [] /\ m = empty_metrics)
  \/ (raw_data <> [] /\ log = []
      /\ exists df, build_frame raw_data = Ok df
                    /\ summarise raw_data df = Ok m).
Proof.
  unfold process_data. destruct raw_data as [ | r raw]; intros H.
  - left. injection H as _ <-. auto.
  - right. injection H as <- H.
    apply bind_ok in H as (df & Hdf & H).
    split; [discriminate | eauto].
Qed.

End Shape.

(** ** The ratio columns *)


Lemma safe_not_nan (f : float) : F64.is_nan (safe f) = false.
Proof.
  destruct f as [s | s | | s m e]; try destruct s; reflexivity.
Qed.




Lemma groupby_sum_row (keys : list (option string)) (df : Frame)
  (c : CampaignMetrics) :
  In c (groupby_sum keys df) ->
  exists k sp sa im cl cv, c = summary_row k sp sa im cl cv.
Proof.
  unfold groupby_sum. rewrite in_map_iff. intros (k & <- & _).
  repeat eexists.
Qed.

(** ** Empty input, zero denominators, the two views *)

Section Metrics.

Context {B : Backend}.

(** C4.  On the empty sequence of records the function returns at once:
    the eight overall totals and ratios are 0 and the campaign table and
    both views are empty.  No frame is built and nothing is grouped: on
    the empty sequence the frame has no column, and the first column
    access would raise. *)
Theorem empty_input_zero_metrics :
  exists m,
    snd (process_data []) = Ok m
    /\ total_sales m = F64.zero
    /\ total_ad_spend m = F64.zero
    /\ overall_roas m = F64.zero
    /\ overall_cpa m = F64.zero
    /\ overall_ctr m = F64.zero
    /\ overall_conversion_rate m = F64.zero
    /\ total_impressions m = 0
    /\ total_clicks m = 0
    /\ campaign_summary m = []
    /\ high_roas_campaigns m = []
    /\ active_campaigns m = []
    /\ build_frame [] = Raise (KeyError "spend").
Proof.
  exists empty_metrics. repeat split; reflexivity.
Qed.



Lemma table_roas_not_nan (keys : list (option string)) (df : Frame) :
  Forall (fun c => F64.is_nan (roas c) = false) (groupby_sum keys df).
Proof.
  apply Forall_forall. intros c Hc.
  apply groupby_sum_row in Hc as (k & sp & sa & im & cl & cv & ->).
  apply safe_not_nan.
Qed.

Lemma Forall_filter {X : Type} (P : X -> Prop) (f : X -> bool)
  (l : list X) : Forall P l -> Forall P (filter f l).
Proof.
  rewrite !Forall_forall. intros H x Hx.
  apply filter_In in Hx as [Hx _]. auto.
Qed.

Lemma is_active_iff (c : CampaignMetrics) :
  is_active c = true
  <-> 0 < impressions c \/ 0 < clicks c \/ 0 < conversions c.
Proof.
  unfold is_active. rewrite !orb_true_iff, !Z.ltb_lt. tauto.
Qed.

(** C6.  Whenever [process_data] returns, the high-ROAS view is the
    campaign table restricted to the rows with [roas > 1]; the active
    view holds exactly the rows of the table with impressions, clicks or
    conversions above 0, each as often as the table does; and in the
    active view no row has a greater [roas] than a row before it. *)
Theorem views_filter_and_rank
  (raw_data : list record) (log : list log_record) (m : MetricsResult) :
  process_data raw_data = (log, Ok m) ->
  high_roas_campaigns m
  = filter (fun c => F64.ltb F64.one (roas c)) (campaign_summary m)
  /\ (forall c, In c (high_roas_campaigns m)
                <-> In c (campaign_summary m)
                    /\ F64.ltb F64.one (roas c) = true)
  /\ (forall c, In c (active_campaigns m)
                <-> In c (campaign_summary m)
                    /\ (0 < impressions c \/ 0 < clicks c
                        \/ 0 < conversions c))
  /\ Permutation (filter is_active (campaign_summary m))
       (active_campaigns m)
  /\ StronglySorted (fun a b => F64.leb (roas b) (roas a) = true)
       (active_campaigns m).
Proof.
  intros H. apply process_data_ok in H as [(-> & ->) | (_ & _ & df & _ & H)].
  - simpl. repeat split; try tauto; constructor.
  - apply summarise_ok in H as (keys & _ & (Ht & Hh & Ha) & _).
    assert (Hperm : Permutation (filter is_active (campaign_summary m))
                      (active_campaigns m))
      by (rewrite Ha; apply sort_desc_perm).
    split; [exact Hh | ]. split; [ | split; [ | split]].
    + intros c. rewrite Hh. apply filter_In.
    + intros c. rewrite <- is_active_iff, <- filter_In. split.
      * apply Permutation_in, Permutation_sym, Hperm.
      * apply Permutation_in, Hperm.
    + exact Hperm.
    + rewrite Ha. apply Sorted_StronglySorted.
      * intros a b c Hab Hbc. exact (F64Facts.leb_trans _ _ _ Hbc Hab).
      * apply sort_desc_sorted.
        apply Forall_filter. rewrite Ht. apply table_roas_not_nan.
Qed.

End Metrics.

(** ** The frame: coercion and extraction, record by record *)

Section FrameFacts.

Context {B : Backend}.

Lemma mapM_map_ok {X Y Z' : Type} (g : X -> Y) (f : Y -> result Z')
  (l : list X) (zs : list Z') :
  mapM f (map g l) = Ok zs -> Forall2 (fun x z => f (g x) = Ok z) l zs.
Proof.
  revert zs. induction l as [ | x l IH]; simpl; intros zs H.
  - injection H as <-. constructor.
  - apply bind_ok in H as (z & Hz & H).
    apply bind_ok in H as (zs' & Hzs & H).
    injection H as <-. constructor; auto.
Qed.

Lemma Forall2_chain {X Y Z' : Type} (P : X -> Y -> Prop)
  (Q : Y -> Z' -> Prop) (xs : list X) (ys : list Y) (zs : list Z') :
  Forall2 P xs ys -> Forall2 Q ys zs ->
  Forall2 (fun x z => exists y, P x y /\ Q y z) xs zs.
Proof.
  intros H. revert zs. induction H as [ | x y xs ys Hxy _ IH]; intros zs Hq.
  - inversion Hq. constructor.
  - inversion Hq as [ | ? z ? zs' Hyz Hq']; subst.
    constructor; eauto.
Qed.


Lemma Forall2_self_map {X Y : Type} (g : X -> Y) (xs : list X) :
  Forall2 (fun x y => y = g x) xs (map g xs).
Proof.
  induction xs; simpl; constructor; auto.
Qed.



(** What [build_frame] stores, record by record. *)
Lemma build_frame_ok (raw_data : list record) (df : Frame) :
  build_frame raw_data = Ok df ->
  col_spend df
  = map (fun r => fillna0 (to_numeric_coerce (cell "spend" r))) raw_data
  /\ Forall2
       (fun r z =>
          astype_int (fillna0 (to_numeric_coerce (cell "impressions" r)))
          = Ok z)
       raw_data (col_impressions df)
  /\ Forall2
       (fun r z =>
          astype_int (fillna0 (to_numeric_coerce (cell "clicks" r)))
          = Ok z)
       raw_data (col_clicks df)
  /\ Forall2
       (fun r z =>
          exists v, purchase_value (cell "actions" r) = Ok v
                    /\ number_astype_int v = Ok z)
       raw_data (col_conversions df)
  /\ Forall2
       (fun r s =>
          exists v, purchase_value (cell "action_values" r) = Ok v
                    /\ s = number_astype_float v)
       raw_data (col_sales df).
Proof.
  unfold build_frame. intros H.
  apply bind_ok in H as (c1 & H1 & H). apply df_getitem_ok in H1. subst c1.
  apply bind_ok in H as (c2 & H2 & H). apply df_getitem_ok in H2. subst c2.
  apply bind_ok in H as (imp & Himp & H).
  apply bind_ok in H as (c3 & H3 & H). apply df_getitem_ok in H3. subst c3.
  apply bind_ok in H as (cl & Hcl & H).
  apply bind_ok in H as (c4 & H4 & H). apply df_getitem_ok in H4. subst c4.
  apply bind_ok in H as (found & Hf & H).
  apply bind_ok in H as (conv & Hconv & H).
  apply bind_ok in H as (c5 & H5 & H). apply df_getitem_ok in H5. subst c5.
  apply bind_ok in H as (found' & Hf' & H).
  injection H as <-. simpl.
  rewrite map_map. split; [reflexivity | ].
  split; [exact (mapM_map_ok _ _ _ _ Himp) | ].
  split; [exact (mapM_map_ok _ _ _ _ Hcl) | ].
  split.
  - apply mapM_map_ok in Hf. apply mapM_ok in Hconv.
    exact (Forall2_chain _ _ _ _ _ Hf Hconv).
  - apply mapM_map_ok in Hf'.
    eapply Forall2_chain; [exact Hf' | apply Forall2_self_map].
Qed.




End FrameFacts.

(** ** Coercion of the top-level fields *)

Section Coercion.

Context {B : Backend}.








End Coercion.

(** ** When the function returns *)

Section Totality.

Context {B : Backend}.

Lemma astype_int_not_inf (f : float) :
  F64.is_inf f = false -> exists z, astype_int (fillna0 f) = Ok z.
Proof.
  unfold astype_int. destruct f; try discriminate; simpl; eauto.
Qed.

Lemma first_purchase_total (fin : bool) (items : list pyval) :
  Forall (entry_ok fin) items ->
  exists v, first_purchase items = Ok v
            /\ (v = PyInt 0
                \/ exists f, v = PyFloat f
                             /\ (fin = true -> F64.is_finite f = true)).
Proof.
  induction 1 as [ | item items (d & t & -> & Ht & Hv) _ IH]; simpl.
  - eauto.
  - rewrite Ht. simpl. destruct (eq_str t "purchase").
    + destruct (Hv eq_refl) as (v & f & Hl & Hf & Hfin).
      rewrite Hl. simpl. rewrite Hf. simpl.
      exists (PyFloat f). split; [reflexivity | right; eauto].
    + exact IH.
Qed.

Lemma purchase_value_total (fin : bool) (x : pyval) :
  entries_ok fin x ->
  exists v, purchase_value x = Ok v
            /\ (v = PyInt 0
                \/ exists f, v = PyFloat f
                             /\ (fin = true -> F64.is_finite f = true)).
Proof.
  destruct x; simpl; eauto. apply first_purchase_total.
Qed.

Lemma conversions_total (x : pyval) :
  entries_ok true x ->
  exists v z, purchase_value x = Ok v /\ number_astype_int v = Ok z.
Proof.
  intros H. destruct (purchase_value_total true x H)
    as (v & Hv & [-> | (f & -> & Hf)]).
  - exists (PyInt 0), 0. auto.
  - exists (PyFloat f). simpl. unfold astype_int.
    rewrite (Hf eq_refl). eauto.
Qed.

Lemma mapM_map_total {X Y Z' : Type} (g : X -> Y) (f : Y -> result Z')
  (l : list X) :
  Forall (fun x => exists z, f (g x) = Ok z) l ->
  exists zs, mapM f (map g l) = Ok zs.
Proof.
  intros H. apply mapM_total. apply Forall_map. exact H.
Qed.

Lemma mapM_chain_total {X Y Z' : Type} (f : X -> result Y)
  (g : Y -> result Z') (l : list X) :
  Forall (fun x => exists y z, f x = Ok y /\ g y = Ok z) l ->
  exists ys zs, mapM f l = Ok ys /\ mapM g ys = Ok zs.
Proof.
  induction 1 as [ | x l (y & z & Hy & Hz) _ (ys & zs & Hys & Hzs)]; simpl.
  - exists [], []. auto.
  - rewrite Hy, Hys. simpl. exists (y :: ys), (z :: zs). simpl.
    rewrite Hz, Hzs. auto.
Qed.

Lemma name_ok_key (v : pyval) :
  name_ok v -> exists k, group_key v = Ok k.
Proof.
  destruct v; simpl; try contradiction; eauto.
  intros ->. eauto.
Qed.

Lemma process_data_nonempty (raw_data : list record) :
  raw_data = []
  \/ (raw_data <> []
      /\ process_data raw_data
         = ([], df <- build_frame raw_data ;; summarise raw_data df)).
Proof.
  destruct raw_data; [left; reflexivity | right].
  split; [discriminate | reflexivity].
Qed.

(** Where the function does return.  [process_data] returns a result,
    raising nothing, on the empty sequence and on every sequence of
    records in
    which each of the six fields occurs in some record, every campaign
    name is text, null or missing, no impressions or clicks field is an
    infinity, and every entry of a list-valued [actions] or
    [action_values] is a dictionary with an [action_type] and, if a
    purchase, a [value] that [float] accepts (a finite one in
    [actions]).  The spend, impressions and clicks fields may otherwise
    be missing, null, of a wrong type or unparsable, and [actions] and
    [action_values] may be missing or not lists. *)
Lemma returns_on_readable_records (raw_data : list record) :
  (raw_data <> [] -> columns_present raw_data) ->
  Forall record_ok raw_data ->
  exists m, snd (process_data raw_data) = Ok m.
Proof.
  intros Hcols Hrec.
  destruct (process_data_nonempty raw_data) as [-> | Hne]; [simpl; eauto | ].
  destruct Hne as [Hne ->]. simpl snd.
  pose proof (proj1 (Forall_forall _ _) (Hcols Hne)) as Hin. simpl in Hin.
  assert (K1 := Hin "spend"%string ltac:(tauto)).
  assert (K2 := Hin "impressions"%string ltac:(tauto)).
  assert (K3 := Hin "clicks"%string ltac:(tauto)).
  assert (K4 := Hin "actions"%string ltac:(tauto)).
  assert (K5 := Hin "action_values"%string ltac:(tauto)).
  assert (K6 := Hin "campaign_name"%string ltac:(tauto)).
  clear Hin Hcols Hne.
  assert (Himp : exists zs,
             mapM (fun v => astype_int (fillna0 (to_numeric_coerce v)))
               (map (cell "impressions") raw_data) = Ok zs).
  { apply mapM_map_total. eapply Forall_impl; [ | exact Hrec].
    intros r (H & _). apply astype_int_not_inf, H. }
  assert (Hcl : exists zs,
             mapM (fun v => astype_int (fillna0 (to_numeric_coerce v)))
               (map (cell "clicks") raw_data) = Ok zs).
  { apply mapM_map_total. eapply Forall_impl; [ | exact Hrec].
    intros r (_ & H & _). apply astype_int_not_inf, H. }
  assert (Hcv : exists vs zs,
             mapM purchase_value (map (cell "actions") raw_data) = Ok vs
             /\ mapM number_astype_int vs = Ok zs).
  { apply mapM_chain_total. apply Forall_map.
    eapply Forall_impl; [ | exact Hrec].
    intros r (_ & _ & H & _). apply conversions_total, H. }
  assert (Hsa : exists vs,
             mapM purchase_value (map (cell "action_values") raw_data)
             = Ok vs).
  { apply mapM_map_total. eapply Forall_impl; [ | exact Hrec].
    intros r (_ & _ & _ & H & _).
    destruct (purchase_value_total false _ H) as (v & Hv & _). eauto. }
  assert (Hk : exists ks,
             mapM group_key (map (cell "campaign_name") raw_data) = Ok ks).
  { apply mapM_map_total. eapply Forall_impl; [ | exact Hrec].
    intros r (_ & _ & _ & _ & H). apply name_ok_key, H. }
  destruct Himp as (imp & Himp), Hcl as (cl & Hcl),
    Hcv as (vs & cv & Hvs & Hcv), Hsa as (sa & Hsa), Hk as (ks & Hk).
  unfold build_frame, df_getitem.
  rewrite K1, K2, K3, K4, K5.
  cbn [bind]. rewrite Himp. cbn [bind]. rewrite Hcl. cbn [bind].
  rewrite Hvs. cbn [bind]. rewrite Hcv. cbn [bind].
  rewrite Hsa. cbn [bind].
  unfold summarise, df_getitem. rewrite K6. cbn [bind].
  rewrite Hk. cbn [bind]. eauto.
Qed.

End Totality.

(** ** Order of the campaign table and of the views *)

Lemma str_lt_trans (a b c : string) : str_lt a b -> str_lt b c -> str_lt a c.
Proof.
  unfold str_lt. change String.compare with String_as_OT.cmp.
  rewrite !String_as_OT.cmp_lt. apply String_as_OT.lt_trans.
Qed.

Lemma str_gt_lt (a b : string) : String.compare a b = Gt -> str_lt b a.
Proof.
  unfold str_lt. intros H. rewrite String.compare_antisym, H. reflexivity.
Qed.

Lemma insert_key_In (k x : string) (ks : list string) :
  In x (insert_key k ks) <-> x = k \/ In x ks.
Proof.
  induction ks as [ | k' ks IH]; simpl.
  - intuition auto.
  - destruct (String.compare k k') eqn:E; simpl.
    + apply String.compare_eq_iff in E. subst k'. intuition auto.
    + intuition auto.
    + rewrite IH. intuition auto.
Qed.

Lemma insert_key_sorted (k : string) (ks : list string) :
  StronglySorted str_lt ks -> StronglySorted str_lt (insert_key k ks).
Proof.
  induction 1 as [ | k' ks Hs IH Hall]; simpl.
  - repeat constructor.
  - destruct (String.compare k k') eqn:E.
    + constructor; assumption.
    + constructor; [constructor; assumption | ].
      constructor; [exact E | ].
      eapply Forall_impl; [ | exact Hall].
      intros x. apply str_lt_trans, E.
    + constructor; [exact IH | ].
      apply Forall_forall. intros x Hx.
      apply insert_key_In in Hx as [-> | Hx].
      * apply str_gt_lt, E.
      * rewrite Forall_forall in Hall. apply Hall, Hx.
Qed.

Lemma group_keys_sorted (keys : list (option string)) :
  StronglySorted str_lt (group_keys keys).
Proof.
  induction keys as [ | [k | ] keys IH]; simpl.
  - constructor.
  - apply insert_key_sorted, IH.
  - exact IH.
Qed.

Lemma group_keys_In (keys : list (option string)) (k : string) :
  In k (group_keys keys) <-> In (Some k) keys.
Proof.
  induction keys as [ | [k' | ] keys IH]; simpl.
  - tauto.
  - rewrite insert_key_In, IH. split.
    + intros [-> | H]; auto.
    + intros [H | H]; [injection H as ->; auto | auto].
  - rewrite IH. split; [auto | intros [H | H]; [discriminate | exact H]].
Qed.




Section Order.

Context {B : Backend}.


Lemma sort_desc_singleton {X : Type} (key : X -> float) (x : X) :
  sort_desc key [x] = [x].
Proof.
  apply Permutation_length_1_inv, sort_desc_perm.
Qed.

End Order.


(** ** Exact additions

    Binary64 addition rounds, except when the operands and the sum are
    representable; that is the case of non-negative whole numbers whose
    sum stays below [2^53]. *)

Module F64Exact.

Definition digits (p : positive) : Z := Zpos (digits2_pos p).

Lemma digits_pos (p : positive) : 1 <= digits p.
Proof. unfold digits. lia. Qed.

Lemma digits_bounds (p : positive) :
  2 ^ (digits p - 1) <= Zpos p < 2 ^ digits p.
Proof.
  unfold digits. induction p as [p IH | p IH | ]; simpl digits2_pos.
  - rewrite Pos2Z.inj_succ.
    replace (Z.succ (Zpos (digits2_pos p)) - 1)
      with (Z.succ (Zpos (digits2_pos p) - 1)) by lia.
    rewrite !Z.pow_succ_r by lia. lia.
  - rewrite Pos2Z.inj_succ.
    replace (Z.succ (Zpos (digits2_pos p)) - 1)
      with (Z.succ (Zpos (digits2_pos p) - 1)) by lia.
    rewrite !Z.pow_succ_r by lia. lia.
  - simpl. lia.
Qed.

Lemma digits_unique (p : positive) (d : Z) :
  2 ^ (d - 1) <= Zpos p < 2 ^ d -> digits p = d.
Proof.
  intros [Hlo Hhi]. pose proof (digits_bounds p) as [Hlo' Hhi'].
  pose proof (digits_pos p).
  destruct (Z.lt_trichotomy (digits p) d) as [Hlt | [Heq | Hgt]]; auto; exfalso.
  - assert (2 ^ digits p <= 2 ^ (d - 1)) by (apply Z.pow_le_mono_r; lia). lia.
  - assert (d < 0 \/ 0 <= d) as [Hn | Hn] by lia.
    + rewrite (Z.pow_neg_r 2 d Hn) in Hhi. lia.
    + assert (2 ^ d <= 2 ^ (digits p - 1)) by (apply Z.pow_le_mono_r; lia). lia.
Qed.

Lemma iter_xO (m k : positive) : Zpos (Pos.iter xO m k) = Zpos m * 2 ^ Zpos k.
Proof.
  induction k as [ | k IH] using Pos.peano_ind.
  - simpl. lia.
  - rewrite Pos.iter_succ, Pos2Z.inj_succ, Z.pow_succ_r by lia.
    rewrite Pos2Z.inj_xO, IH. lia.
Qed.

Lemma digits_mul_pow2 (m p : positive) (k : Z) :
  0 <= k -> Zpos p = Zpos m * 2 ^ k -> digits p = digits m + k.
Proof.
  intros Hk Hp. apply digits_unique. rewrite Hp.
  pose proof (digits_bounds m) as [Hlo Hhi]. pose proof (digits_pos m).
  replace (digits m + k - 1) with ((digits m - 1) + k) by lia.
  rewrite !Z.pow_add_r by lia.
  assert (0 < 2 ^ k) by (apply Z.pow_pos_nonneg; lia). nia.
Qed.

Lemma iter_pos_iter {A : Type} (f : A -> A) (p : positive) (x : A) :
  iter_pos f p x = Pos.iter f x p.
Proof.
  revert x. induction p as [p IH | p IH | ]; intros x; simpl.
  - rewrite !IH. rewrite <- !Pos.iter_swap. reflexivity.
  - rewrite !IH. reflexivity.
  - reflexivity.
Qed.

Definition exact (m : Z) : shr_record :=
  {| shr_m := m; shr_r := false; shr_s := false |}.

Lemma shr_exact (m n : positive) :
  iter_pos shr_1 n (exact (Zpos (Pos.iter xO m n))) = exact (Zpos m).
Proof.
  rewrite iter_pos_iter.
  induction n as [ | n IH] using Pos.peano_ind.
  - reflexivity.
  - rewrite Pos.iter_succ_r, Pos.iter_succ. simpl. exact IH.
Qed.

Lemma fexp_normal (d : Z) :
  -1021 <= d -> fexp F64.prec F64.emax d = d - 53.
Proof.
  unfold fexp, emin, F64.prec, F64.emax. lia.
Qed.

Lemma shr_fexp_canonical (m : positive) (e : Z) :
  digits m = 53 -> -1074 <= e ->
  shr_fexp F64.prec F64.emax (Zpos m) e loc_Exact = (exact (Zpos m), e).
Proof.
  intros Hd He. unfold shr_fexp.
  change (Zdigits2 (Zpos m)) with (digits m). rewrite Hd.
  rewrite fexp_normal by lia.
  replace (53 + e - 53 - e) with 0 by lia. reflexivity.
Qed.

Lemma round_aux_canonical (m : positive) (e : Z) :
  digits m = 53 -> -1074 <= e <= 971 ->
  binary_round_aux F64.prec F64.emax false (Zpos m) e loc_Exact
  = S754_finite false m e.
Proof.
  intros Hd He. unfold binary_round_aux.
  rewrite shr_fexp_canonical by lia.
  change (round_nearest_even (shr_m (exact (Zpos m)))
            (loc_of_shr_record (exact (Zpos m)))) with (Zpos m).
  rewrite shr_fexp_canonical by lia.
  change (shr_m (exact (Zpos m))) with (Zpos m). cbv beta iota.
  unfold F64.emax, F64.prec.
  destruct (Z.leb_spec e (1024 - 53)); [reflexivity | lia].
Qed.

(** Rounding a mantissa that is a canonical one shifted left. *)
Lemma round_aux_shifted (M m : positive) (e n : Z) :
  digits m = 53 -> 0 <= n -> Zpos M = Zpos m * 2 ^ n ->
  -1074 <= e + n <= 971 ->
  binary_round_aux F64.prec F64.emax false (Zpos M) e loc_Exact
  = S754_finite false m (e + n).
Proof.
  intros Hd Hn HM He.
  destruct n as [ | n | n]; [ | | lia].
  - rewrite Z.pow_0_r, Z.mul_1_r in HM. injection HM as ->.
    rewrite Z.add_0_r in *. apply round_aux_canonical; assumption.
  - assert (HM' : M = Pos.iter xO m n).
    { apply Pos2Z.inj. rewrite iter_xO. exact HM. }
    unfold binary_round_aux, shr_fexp at 1.
    change (Zdigits2 (Zpos M)) with (digits M).
    rewrite (digits_mul_pow2 m M (Zpos n)), Hd by (lia || assumption).
    rewrite fexp_normal by lia.
    replace (53 + Zpos n + e - 53 - e) with (Zpos n) by lia.
    change (shr_record_of_loc (Zpos M) loc_Exact) with (exact (Zpos M)).
    unfold shr. rewrite HM', shr_exact.
    change (round_nearest_even (shr_m (exact (Zpos m)))
              (loc_of_shr_record (exact (Zpos m)))) with (Zpos m).
    rewrite shr_fexp_canonical by lia.
    change (shr_m (exact (Zpos m))) with (Zpos m). cbv beta iota.
    unfold F64.emax, F64.prec.
    destruct (Z.leb_spec (e + Zpos n) (1024 - 53)); [reflexivity | lia].
Qed.

(** The canonical mantissa of a positive integer of at most 53 bits. *)
Definition mant (s : positive) : positive :=
  Z.to_pos (Zpos s * 2 ^ (53 - digits s)).

Lemma mant_spec (s : positive) :
  digits s <= 53 ->
  Zpos (mant s) = Zpos s * 2 ^ (53 - digits s) /\ digits (mant s) = 53.
Proof.
  intros Hd. unfold mant.
  assert (0 < 2 ^ (53 - digits s)) by (apply Z.pow_pos_nonneg; lia).
  assert (E : Zpos (Z.to_pos (Zpos s * 2 ^ (53 - digits s)))
              = Zpos s * 2 ^ (53 - digits s)) by (apply Z2Pos.id; lia).
  split; [exact E | ].
  rewrite (digits_mul_pow2 s _ (53 - digits s)) by (lia || exact E). lia.
Qed.

(** Rounding [s * 2^k] given as mantissa [M] and exponent [e]. *)
Lemma binary_round_int (M s : positive) (e k : Z) :
  digits s <= 53 -> 0 <= k -> Zpos M = Zpos s * 2 ^ k ->
  -1021 <= e + k -> e + k + 53 <= 1024 ->
  binary_round F64.prec F64.emax false M e
  = S754_finite false (mant s) (e + k + digits s - 53).
Proof.
  intros Hd Hk HM Hlo Hhi.
  destruct (mant_spec s Hd) as [Hm Hmd]. pose proof (digits_pos s).
  unfold binary_round.
  change (Zpos (digits2_pos M)) with (digits M).
  rewrite (digits_mul_pow2 s M k) by assumption.
  rewrite fexp_normal by lia. unfold shl_align.
  destruct (digits s + k + e - 53 - e) as [ | n | n] eqn:En.
  - rewrite <- (Z.add_0_r e) at 1.
    replace (e + k + digits s - 53) with (e + 0) by lia.
    assert (M = mant s) as ->.
    { apply Pos2Z.inj. rewrite HM, Hm. f_equal. f_equal. lia. }
    rewrite Z.add_0_r. apply round_aux_canonical; [assumption | lia].
  - replace (e + k + digits s - 53) with (e + Zpos n) by lia.
    apply round_aux_shifted; try assumption; try lia.
    rewrite HM, Hm, <- Z.mul_assoc, <- Z.pow_add_r by lia.
    f_equal. f_equal. lia.
  - replace (e + k + digits s - 53) with (digits s + k + e - 53) by lia.
    assert (Pos.iter xO M n = mant s) as ->.
    { apply Pos2Z.inj. rewrite iter_xO, HM, Hm, <- Z.mul_assoc,
        <- Z.pow_add_r by lia. f_equal. f_equal. lia. }
    apply round_aux_canonical; [assumption | lia].
Qed.

(** The double of a positive integer below [2^53]. *)
Lemma of_Z_pos (s : positive) :
  digits s <= 53 ->
  F64.of_Z (Zpos s) = S754_finite false (mant s) (digits s - 53).
Proof.
  intros Hd. unfold F64.of_Z, binary_normalize.
  rewrite (binary_round_int s s 0 0) by (pose proof (digits_pos s); lia).
  f_equal.
Qed.

Lemma digits_mono (p q : positive) :
  (p <= q)%positive -> digits p <= digits q.
Proof.
  intros Hpq. pose proof (digits_bounds p) as [Hp _].
  pose proof (digits_bounds q) as [_ Hq].
  destruct (Z.le_gt_cases (digits p) (digits q)) as [H | H]; [exact H | ].
  assert (2 ^ digits q <= 2 ^ (digits p - 1))
    by (apply Z.pow_le_mono_r; lia).
  lia.
Qed.

Lemma shl_align_value (m : positive) (e e' : Z) :
  e' <= e ->
  Zpos (fst (shl_align m e e')) = Zpos m * 2 ^ (e - e').
Proof.
  intros He. unfold shl_align.
  destruct (e' - e) as [ | d | d] eqn:Ed; simpl fst.
  - replace (e - e') with 0 by lia. lia.
  - lia.
  - rewrite iter_xO. f_equal. f_equal. lia.
Qed.

Lemma add_of_Z_pos (p q : positive) :
  digits (p + q) <= 53 ->
  F64.add (F64.of_Z (Zpos p)) (F64.of_Z (Zpos q))
  = F64.of_Z (Zpos (p + q)).
Proof.
  intros Hd.
  assert (Hp : digits p <= digits (p + q)) by (apply digits_mono; lia).
  assert (Hq : digits q <= digits (p + q)) by (apply digits_mono; lia).
  pose proof (digits_pos p). pose proof (digits_pos q).
  rewrite !of_Z_pos by lia.
  destruct (mant_spec p) as [Hmp _]; [lia | ].
  destruct (mant_spec q) as [Hmq _]; [lia | ].
  unfold F64.add, SFadd.
  set (ez := Z.min (digits p - 53) (digits q - 53)).
  unfold cond_Zopp.
  rewrite <- Pos2Z.inj_add. unfold binary_normalize.
  rewrite (binary_round_int _ (p + q) ez (- ez)); try lia.
  - f_equal. lia.
  - rewrite Pos2Z.inj_add, !shl_align_value by lia.
    rewrite Hmp, Hmq, <- !Z.mul_assoc, <- !Z.pow_add_r by lia.
    rewrite Pos2Z.inj_add, Z.mul_add_distr_r. f_equal; f_equal; f_equal; lia.
Qed.

Lemma digits_small (p : positive) : Zpos p < 2 ^ 53 -> digits p <= 53.
Proof.
  intros Hp. pose proof (digits_bounds p) as [Hlo _].
  destruct (Z.le_gt_cases (digits p) 53) as [H | H]; [exact H | ].
  assert (2 ^ 53 <= 2 ^ (digits p - 1)) by (apply Z.pow_le_mono_r; lia).
  lia.
Qed.

(** Adding two non-negative whole numbers is exact as long as the sum
    stays below [2^53]. *)
Lemma add_of_Z (a b : Z) :
  0 <= a -> 0 <= b -> a + b < 2 ^ 53 ->
  F64.add (F64.of_Z a) (F64.of_Z b) = F64.of_Z (a + b).
Proof.
  intros Ha Hb Hab.
  destruct a as [ | p | p]; [ | | lia]; destruct b as [ | q | q]; try lia.
  - reflexivity.
  - simpl Z.add. rewrite of_Z_pos by (apply digits_small; lia). reflexivity.
  - rewrite Z.add_0_r, of_Z_pos by (apply digits_small; lia). reflexivity.
  - apply add_of_Z_pos, digits_small. lia.
Qed.

Lemma of_Z_not_nan (a : Z) :
  0 <= a < 2 ^ 53 -> F64.is_nan (F64.of_Z a) = false.
Proof.
  intros [Ha Hb]. destruct a as [ | p | p]; [reflexivity | | lia].
  rewrite of_Z_pos by (apply digits_small; lia). reflexivity.
Qed.

End F64Exact.

(** ** Aggregation consistency *)

Lemma select_cons {X : Type} (key : option string) (keys : list (option string))
  (x : X) (col : list X) (k : string) :
  select (key :: keys) (x :: col) k
  = if in_group k key then x :: select keys col k else select keys col k.
Proof.
  unfold select. simpl. destruct (in_group k key); reflexivity.
Qed.

Lemma select_map {X Y : Type} (f : X -> Y) (keys : list (option string))
  (col : list X) (k : string) :
  select keys (map f col) k = map f (select keys col k).
Proof.
  revert col. induction keys as [ | key keys IH]; intros [ | x col];
    try reflexivity.
  simpl map. rewrite !select_cons, IH. destruct (in_group k key); reflexivity.
Qed.

Lemma zsum_select_bounds (keys : list (option string)) (ns : list Z)
  (k : string) :
  Forall (fun n => 0 <= n) ns ->
  Forall (fun n => 0 <= n) (select keys ns k)
  /\ 0 <= zsum (select keys ns k) <= zsum ns.
Proof.
  intros H. revert keys. induction H as [ | n ns Hn _ IH]; intros keys.
  - destruct keys; unfold select; simpl. all: split; [constructor | lia].
  - destruct keys as [ | key keys].
    + unfold select; simpl. split; [constructor | ].
      assert (0 <= zsum ns)
        by (destruct (IH []) as [_ ?]; unfold select in *; simpl in *; lia).
      lia.
    + rewrite select_cons. destruct (IH keys) as [Hf Hb].
      destruct (in_group k key); simpl; split; auto; try lia.
Qed.

(** Summing over the keys a function that counts [n] at key [k0]. *)
Lemma zsum_keys_add (K : list string) (k0 : string) (n : Z)
  (f : string -> Z) :
  NoDup K -> In k0 K ->
  zsum (map (fun k => if String.eqb k0 k then n + f k else f k) K)
  = n + zsum (map f K).
Proof.
  induction 1 as [ | k K Hk Hnd IH]; simpl; [tauto | ].
  intros [-> | Hin].
  - rewrite String.eqb_refl.
    assert (E : map (fun k => if String.eqb k0 k then n + f k else f k) K
                = map f K).
    { apply map_ext_in. intros k Hk'.
      destruct (String.eqb_spec k0 k) as [-> | _];
        [contradiction | reflexivity]. }
    rewrite E. lia.
  - destruct (String.eqb_spec k0 k) as [-> | _]; [contradiction | ].
    rewrite IH by assumption. lia.
Qed.

(** Every row is counted in the group of its key, once. *)
Lemma zsum_groups (K : list string) (keys : list (option string))
  (ns : list Z) :
  NoDup K -> List.length keys = List.length ns ->
  Forall (fun key => exists k, key = Some k /\ In k K) keys ->
  zsum (map (fun k => zsum (select keys ns k)) K) = zsum ns.
Proof.
  intros Hnd. revert ns.
  induction keys as [ | key keys IH]; intros [ | n ns] Hlen Hk;
    try discriminate.
  - unfold select. simpl. induction K; simpl; auto.
    inversion Hnd; subst. auto.
  - inversion Hk as [ | ? ? (k0 & -> & Hin) Hk']; subst.
    simpl in Hlen. injection Hlen as Hlen.
    change (zsum (n :: ns)) with (n + zsum ns).
    rewrite <- (IH ns Hlen Hk').
    rewrite <- (zsum_keys_add K k0 n _ Hnd Hin).
    f_equal. apply map_ext. intros k. rewrite select_cons. simpl.
    destruct (String.eqb k0 k); reflexivity.
Qed.

Lemma str_lt_irrefl (a : string) : ~ str_lt a a.
Proof.
  unfold str_lt. intros H.
  assert (E : String.compare a a = Eq)
    by (apply (proj2 (String_as_OT.cmp_eq a a)); reflexivity).
  rewrite E in H. discriminate.
Qed.

Lemma group_keys_NoDup (keys : list (option string)) :
  NoDup (group_keys keys).
Proof.
  pose proof (group_keys_sorted keys) as H.
  induction H as [ | k ks _ IH Hall]; constructor; auto.
  intros Hin. rewrite Forall_forall in Hall.
  exact (str_lt_irrefl k (Hall k Hin)).
Qed.

Lemma fsum_of_Z_from (ns : list Z) (acc : Z) :
  0 <= acc -> Forall (fun n => 0 <= n) ns -> acc + zsum ns < 2 ^ 53 ->
  fold_left F64.add (map fillna0 (map F64.of_Z ns)) (F64.of_Z acc)
  = F64.of_Z (acc + zsum ns).
Proof.
  intros Ha Hns. revert acc Ha.
  induction Hns as [ | n ns Hn Hns IH]; intros acc Ha Hb.
  - simpl. rewrite Z.add_0_r. reflexivity.
  - change (zsum (n :: ns)) with (n + zsum ns) in *.
    assert (0 <= zsum ns).
    { clear - Hns. induction Hns; simpl; lia. }
    cbn [map fold_left]. unfold fillna0 at 2.
    rewrite F64Exact.of_Z_not_nan by lia.
    rewrite F64Exact.add_of_Z by lia.
    rewrite IH by lia. f_equal. lia.
Qed.

Lemma fsum_of_Z (ns : list Z) :
  Forall (fun n => 0 <= n) ns -> zsum ns < 2 ^ 53 ->
  fsum (map F64.of_Z ns) = F64.of_Z (zsum ns).
Proof.
  intros Hns Hb. unfold fsum.
  change F64.zero with (F64.of_Z 0).
  rewrite fsum_of_Z_from by (assumption || lia). reflexivity.
Qed.

Lemma Forall2_length_eq {X Y : Type} (P : X -> Y -> Prop) (xs : list X)
  (ys : list Y) : Forall2 P xs ys -> List.length xs = List.length ys.
Proof.
  induction 1; simpl; congruence.
Qed.

Lemma Forall2_Forall_r {X Y : Type} (P : X -> Y -> Prop) (Q : Y -> Prop)
  (xs : list X) (ys : list Y) :
  (forall x y, In x xs -> P x y -> Q y) -> Forall2 P xs ys -> Forall Q ys.
Proof.
  intros H HF. induction HF as [ | x y xs ys Hxy _ IH]; constructor.
  - apply (H x y); [left; reflexivity | exact Hxy].
  - apply IH. intros x' y' Hin. apply H. right. exact Hin.
Qed.

Section Consistency.

Context {B : Backend}.

(** C5, as the code has it.  Whenever [process_data] returns on records
    that all have a text campaign name and whose spend values are
    non-negative whole numbers with a sum below [2^53], the spend column
    of the campaign table adds up to [total_ad_spend].  (Every addition
    is then exact.  The table and the total add the same values in a
    different order, so that otherwise they agree up to rounding only;
    and the rows without a campaign name are in the total and in no
    group.) *)
Theorem spend_total_consistent
  (raw_data : list record) (log : list log_record) (m : MetricsResult) :
  process_data raw_data = (log, Ok m) ->
  Forall has_name raw_data ->
  Forall whole_spend raw_data ->
  zsum (map (fun r => F64.trunc (spend_value r)) raw_data) < 2 ^ 53 ->
  fsum (map spend (campaign_summary m)) = total_ad_spend m.
Proof.
  intros H Hname Hwhole Hbound.
  apply process_data_ok in H as [(-> & ->) | (_ & _ & df & Hdf & H)];
    [reflexivity | ].
  apply build_frame_ok in Hdf as (Hsp & _).
  apply summarise_ok in H as (keys & Hk & (Ht & _) & Htot & _).
  set (ns := map (fun r => F64.trunc (spend_value r)) raw_data) in *.
  assert (Hns : Forall (fun n => 0 <= n) ns).
  { unfold ns. apply Forall_map.
    eapply Forall_impl; [ | exact Hwhole]. intros r [Hr _]. exact Hr. }
  assert (Hcol : col_spend df = map F64.of_Z ns).
  { rewrite Hsp. unfold ns. rewrite map_map. apply map_ext_in.
    intros r Hr. rewrite Forall_forall in Hwhole.
    exact (proj2 (Hwhole r Hr)). }
  apply mapM_map_ok in Hk.
  assert (Hlen : List.length keys = List.length ns).
  { unfold ns. rewrite length_map. symmetry.
    eapply Forall2_length_eq, Hk. }
  assert (Hsome : Forall (fun key => exists k, key = Some k) keys).
  { eapply Forall2_Forall_r; [ | exact Hk]. simpl.
    intros r key Hr Hkey. rewrite Forall_forall in Hname.
    destruct (Hname r Hr) as (s & Hs). rewrite Hs in Hkey.
    injection Hkey as <-. eauto. }
  assert (Hin : Forall (fun key => exists k, key = Some k
                                             /\ In k (group_keys keys)) keys).
  { apply Forall_forall. intros key Hkey.
    rewrite Forall_forall in Hsome. destruct (Hsome key Hkey) as (k & ->).
    exists k. split; [reflexivity | apply group_keys_In, Hkey]. }
  pose proof (zsum_groups _ keys ns (group_keys_NoDup keys) Hlen Hin) as Hg.
  rewrite Htot, Ht, Hcol. unfold groupby_sum. rewrite map_map.
  unfold summary_row. cbn [spend].
  rewrite (fsum_of_Z ns) by assumption.
  assert (E : map (fun k => fsum (select keys (col_spend df) k))
                (group_keys keys)
              = map F64.of_Z
                  (map (fun k => zsum (select keys ns k)) (group_keys keys))).
  { rewrite map_map. apply map_ext. intros k.
    rewrite Hcol, select_map.
    destruct (zsum_select_bounds keys ns k Hns) as [Hf Hb].
    apply fsum_of_Z; [exact Hf | lia]. }
  rewrite E, fsum_of_Z.
  - rewrite Hg. reflexivity.
  - apply Forall_map, Forall_forall. intros k _.
    apply (zsum_select_bounds keys ns k Hns).
  - rewrite Hg. exact Hbound.
Qed.

End Consistency.

Local Open Scope string_scope.

(** ** Scenario B *)

Section Scenarios.

Context {B : Backend}.

(** C8.  On the single record of scenario B the campaign table has the
    one row X with spend 100, sales 500, conversions 5, roas 5.0, cpa
    20.0, ctr 5.0 and conversion rate 10.0; the overall totals and
    ratios are the same values (with 1000 impressions and 50 clicks);
    and X is the one row of the high-ROAS view and of the active view. *)
Theorem scenario_B_metrics :
  exists m,
    process_data scenario_B = ([], Ok m)
    /\ campaign_summary m = [row_X]
    /\ high_roas_campaigns m = [row_X]
    /\ active_campaigns m = [row_X]
    /\ total_sales m = F64.of_Z 500
    /\ total_ad_spend m = F64.of_Z 100
    /\ overall_roas m = F64.of_Z 5
    /\ overall_cpa m = F64.of_Z 20
    /\ overall_ctr m = F64.of_Z 5
    /\ overall_conversion_rate m = F64.of_Z 10
    /\ total_impressions m = 1000
    /\ total_clicks m = 50.
Proof.
  eexists. split.
  - unfold process_data, scenario_B.
    assert (Hdf : build_frame scenario_B
                  = Ok {| col_spend := [F64.of_Z 100];
                          col_impressions := [1000];
                          col_clicks := [50];
                          col_conversions := [5];
                          col_sales := [F64.of_Z 500] |})
      by (vm_compute; reflexivity).
    unfold scenario_B in Hdf. rewrite Hdf. cbn [bind].
    unfold summarise.
    change (df_getitem _ "campaign_name") with (Ok (A:=list pyval) [PyStr "X"]).
    cbn [bind mapM group_key].
    assert (Ht : groupby_sum [Some "X"]
                   {| col_spend := [F64.of_Z 100];
                      col_impressions := [1000];
                      col_clicks := [50];
                      col_conversions := [5];
                      col_sales := [F64.of_Z 500] |} = [row_X])
      by (vm_compute; reflexivity).
    rewrite Ht.
    change (filter is_active [row_X]) with [row_X].
    rewrite sort_desc_singleton. reflexivity.
  - cbn [campaign_summary high_roas_campaigns active_campaigns total_sales
           total_ad_spend overall_roas overall_cpa overall_ctr
           overall_conversion_rate total_impressions total_clicks].
    repeat split; vm_compute; reflexivity.
Qed.

Lemma sort_desc_nil {X : Type} (key : X -> float) : sort_desc key [] = [].
Proof.
  apply Permutation_nil, sort_desc_perm.
Qed.

(** Scenario C of the specification: an unparsable spend with no
    impressions and no clicks gives a row of zeros that is in neither
    view. *)
Lemma scenario_C_metrics :
  exists m,
    process_data scenario_C = ([], Ok m)
    /\ map campaign_name (campaign_summary m) = ["X"]
    /\ map spend (campaign_summary m) = [F64.zero]
    /\ map roas (campaign_summary m) = [F64.zero]
    /\ map ctr (campaign_summary m) = [F64.zero]
    /\ map conversion_rate (campaign_summary m) = [F64.zero]
    /\ high_roas_campaigns m = []
    /\ active_campaigns m = [].
Proof.
  eexists. split; [vm_compute; reflexivity | ].
  cbn [campaign_summary high_roas_campaigns active_campaigns].
  rewrite sort_desc_nil. repeat split.
Qed.

(** Scenario D of the specification: two records of one campaign with
    spends 100 and 200 give one row with spend 300. *)
Lemma scenario_D_metrics :
  exists m,
    process_data scenario_D = ([], Ok m)
    /\ map campaign_name (campaign_summary m) = ["X"]
    /\ map spend (campaign_summary m) = [F64.of_Z 300]
    /\ total_ad_spend m = F64.of_Z 300.
Proof.
  eexists. split; [vm_compute; reflexivity | ].
  repeat split.
Qed.

End Scenarios.

(** ** Effects *)

Section Effects.

Context {B : Backend}.


End Effects.

(** ** Inputs on which the specification and the code part *)

Section MissingColumn.

Context {B : Backend}.

(** C1.  The function does raise.  On a record without an [actions] field
    the frame has no [actions] column; [df['actions']] raises [KeyError]
    and [process_data] lets it through, where the [isinstance] test of
    the extraction was written to count a missing [actions] as 0. *)
Theorem missing_actions_raise :
  snd (process_data no_actions) = Raise (KeyError "actions").
Proof. vm_compute. reflexivity. Qed.

End MissingColumn.

(** [float("abc")] raises, and nothing in [process_data] catches it. *)
Lemma unparsable_purchase_raises :
  snd (process_data (B := stable_backend) unparsable_purchase)
  = Raise ValueError.
Proof. vm_compute. reflexivity. Qed.

(** An entry of [actions] without an [action_type]. *)
Lemma entry_without_action_type_raises :
  snd (process_data (B := stable_backend)
         [campaign_record (PyStr "X") (PyStr "100") (PyStr "1000")
            (PyStr "50") (PyList [PyDict [("value", PyStr "5")]])
            (PyList [])])
  = Raise (KeyError "action_type").
Proof. vm_compute. reflexivity. Qed.

(** Records none of which has a [spend]. *)
Lemma missing_column_raises :
  snd (process_data (B := stable_backend) [[("campaign_name", PyStr "X")]])
  = Raise (KeyError "spend").
Proof. vm_compute. reflexivity. Qed.


(** The same with finite numbers only: the quotient overflows. *)
Lemma overall_roas_overflows :
  exists m,
    snd (process_data (B := stable_backend)
           [campaign_record (PyStr "X") (PyStr "1e-300") (PyStr "1")
              (PyStr "1") (PyList []) (PyList [purchase_entry "1e300"])])
    = Ok m
    /\ overall_roas m = F64.inf.
Proof. eexists. repeat split; vm_compute; reflexivity. Qed.

(** The total counts both, the campaign table only the first. *)
Lemma unnamed_record_not_in_table :
  exists m,
    snd (process_data (B := stable_backend) unnamed_record) = Ok m
    /\ total_ad_spend m = F64.of_Z 3
    /\ fsum (map spend (campaign_summary m)) = F64.of_Z 1
    /\ F64.eqb (fsum (map spend (campaign_summary m))) (total_ad_spend m)
       = false.
Proof. eexists. repeat split; vm_compute; reflexivity. Qed.

(** On [rounded_total] the total adds [1 + 10^16 + 1] and loses both
    units; the table adds [2 + 10^16], which is a double. *)
Lemma rounding_separates_the_sums :
  exists m,
    snd (process_data (B := stable_backend) rounded_total) = Ok m
    /\ total_ad_spend m = F64.of_Z (10 ^ 16)
    /\ fsum (map spend (campaign_summary m)) = F64.of_Z (10 ^ 16 + 2)
    /\ F64.eqb (fsum (map spend (campaign_summary m))) (total_ad_spend m)
       = false.
Proof. eexists. repeat split; vm_compute; reflexivity. Qed.

(** The two sums differ, for either reason. *)
Lemma spend_sums_differ :
  (exists m,
     snd (process_data (B := stable_backend) unnamed_record) = Ok m
     /\ F64.eqb (fsum (map spend (campaign_summary m))) (total_ad_spend m)
        = false)
  /\ (exists m,
        snd (process_data (B := stable_backend) rounded_total) = Ok m
        /\ F64.eqb (fsum (map spend (campaign_summary m))) (total_ad_spend m)
           = false).
Proof.
  split.
  - destruct unnamed_record_not_in_table as (m & H1 & _ & _ & H2). eauto.
  - destruct rounding_separates_the_sums as (m & H1 & _ & _ & H2). eauto.
Qed.




(** ** The theorems at work on concrete records *)

Lemma returns_on_messy_records :
  (messy_records <> [] -> columns_present messy_records)
  /\ Forall record_ok messy_records
  /\ exists m, snd (process_data (B := stable_backend) messy_records) = Ok m.
Proof.
  assert (Hc : messy_records <> [] -> columns_present messy_records).
  { intros _. unfold columns_present. repeat constructor. }
  assert (Hr : Forall record_ok messy_records).
  { apply Forall_cons; [ | apply Forall_cons; [ | apply Forall_nil]].
    - unfold record_ok. repeat split.
      change (Forall (entry_ok false)
                [PyDict [("action_type", PyStr "view")];
                 purchase_entry "12.5"]).
      apply Forall_cons; [ | apply Forall_cons; [ | apply Forall_nil]].
      + exists [("action_type", PyStr "view")], (PyStr "view").
        repeat split. intros H. discriminate H.
      + exists [("action_type", PyStr "purchase"); ("value", PyStr "12.5")],
          (PyStr "purchase").
        repeat split. intros _.
        exists (PyStr "12.5"), (F64.of_decimal false 125 (-1)).
        repeat split.
    - unfold record_ok. repeat split. }
  split; [exact Hc | split; [exact Hr | ]].
  exact (returns_on_readable_records messy_records Hc Hr).
Defined.


Lemma views_filter_and_rank_witness :
  exists m,
    process_data (B := stable_backend) four_campaigns = ([], Ok m)
    /\ map campaign_name (high_roas_campaigns m) = ["C"]
    /\ map campaign_name (active_campaigns m) = ["C"; "A"; "B"]
    /\ high_roas_campaigns m
       = filter (fun c => F64.ltb F64.one (roas c)) (campaign_summary m)
    /\ (forall c, In c (high_roas_campaigns m)
                  <-> In c (campaign_summary m)
                      /\ F64.ltb F64.one (roas c) = true)
    /\ (forall c, In c (active_campaigns m)
                  <-> In c (campaign_summary m)
                      /\ (0 < impressions c \/ 0 < clicks c
                          \/ 0 < conversions c))
    /\ Permutation (filter is_active (campaign_summary m))
         (active_campaigns m)
    /\ StronglySorted (fun a b => F64.leb (roas b) (roas a) = true)
         (active_campaigns m).
Proof.
  eexists. split; [vm_compute; reflexivity | ].
  split; [vm_compute; reflexivity | ]. split; [vm_compute; reflexivity | ].
  apply (views_filter_and_rank (B := stable_backend) four_campaigns []).
  vm_compute. reflexivity.
Defined.


Lemma spend_total_consistent_witness :
  exists m,
    process_data (B := stable_backend) scenario_D = ([], Ok m)
    /\ Forall has_name scenario_D
    /\ Forall whole_spend scenario_D
    /\ zsum (map (fun r => F64.trunc (spend_value r)) scenario_D) < 2 ^ 53
    /\ map spend (campaign_summary m) = [F64.of_Z 300]
    /\ fsum (map spend (campaign_summary m)) = total_ad_spend m.
Proof.
  assert (Hn : Forall has_name scenario_D).
  { repeat constructor; exists "X"; reflexivity. }
  assert (Hw : Forall whole_spend scenario_D).
  { repeat constructor; vm_compute; congruence. }
  assert (Hb : zsum (map (fun r => F64.trunc (spend_value r)) scenario_D)
               < 2 ^ 53) by (vm_compute; reflexivity).
  eexists. split; [vm_compute; reflexivity | ].
  split; [exact Hn | split; [exact Hw | split; [exact Hb | ]]].
  split; [vm_compute; reflexivity | ].
  apply (spend_total_consistent (B := stable_backend) scenario_D []);
    [vm_compute; reflexivity | exact Hn | exact Hw | exact Hb].
Defined.


